(** * mkcheck: the syscall dispatcher of [mkcheck/syscall.cpp]

    A shallow embedding of the handler functions, of the dispatch table
    [kHandlers] and of [Handle], followed by the properties of the
    dispatcher.  The tracer state ([Trace], declared in [trace.h]) and the
    argument block ([Args], declared in [syscall.h]) are not part of
    [syscall.cpp]; they are modelled after the data model of the
    specification. *)

From stdpp Require Import gmap list strings pretty.

Local Open Scope Z_scope.

(** ** Data model *)

(** Canonical absolute path, the key of a file node. *)
Definition FileIdentity := string.

Inductive AccessKind := Read | Write | Rename_From | Rename_To | Delete.

Record DependencyEdge := {
  edge_pid : Z;
  edge_file : FileIdentity;
  edge_kind : AccessKind;
  edge_seq : nat;
}.

(** One entry of a descriptor table; the descriptor number is the key under
    which the entry is stored. *)
Record Descriptor := {
  desc_file : FileIdentity;
  desc_flags : Z;
  desc_cloexec : bool;
}.

Record ProcessState := {
  ps_pid : Z;
  ps_cwd : FileIdentity;
  ps_fds : gmap Z Descriptor;
  ps_parent : option Z;
}.

(** Modelled from the spec: class [Trace] of [trace.h], which [syscall.cpp]
    only uses through a pointer.  It owns the process state table and the
    append-only list of edges. *)
Record Trace := {
  procs : gmap Z ProcessState;
  edges : list DependencyEdge;
}.

(** Modelled from the spec: struct [Args] of [syscall.h]: the process that
    made the call, the value the call returned and the raw argument
    registers.  [syscall.cpp] reads the fields [PID] and [Return], both
    compared as signed 64-bit integers. *)
Record Args := {
  PID : Z;
  Return : Z;
  Arg : list Z;
}.

(** ** Exceptions and outcomes *)

Inductive exn :=
| runtime_error (what : string)
| UnregisteredProcess (pid : Z).

(** What a call that received [Trace *trace] left behind: it returned, it
    threw (the trace is the one at the throw), or it read memory past the
    end of an array, after which C++ promises nothing. *)
Inductive outcome :=
| Done (trace : Trace)
| Raised (e : exn) (trace : Trace)
| Undefined.

Definition trace_after (o : outcome) : option Trace :=
  match o with
  | Done t | Raised _ t => Some t
  | Undefined => None
  end.

(** ** The process state table *)

Module ProcessStateTable.

(** Modelled from the spec: [register(pid, parent, inherited descriptor
    table, inherited cwd)]. *)
Definition register (pid : Z) (parent : option Z)
    (fds : gmap Z Descriptor) (cwd : FileIdentity) (t : Trace) : Trace :=
  {| procs := <[pid := {| ps_pid := pid; ps_cwd := cwd;
                          ps_fds := fds; ps_parent := parent |}]> (procs t);
     edges := edges t |}.

(** Modelled from the spec: [lookup(pid)]; [None] stands for the fatal
    lookup of an unregistered pid. *)
Definition lookup (pid : Z) (t : Trace) : option ProcessState :=
  procs t !! pid.

End ProcessStateTable.

(** Modelled from the spec: [Trace::SpawnTrace(parent, pid)] of [trace.h],
    whose body is not in [syscall.cpp].  The child is registered with a
    snapshot of the parent's descriptor table and working directory; no edge
    is recorded.  The parent must be registered. *)
Definition SpawnTrace (trace : Trace) (parent pid : Z) : outcome :=
  match ProcessStateTable.lookup parent trace with
  | Some ps =>
      Done (ProcessStateTable.register pid (Some parent)
              (ps_fds ps) (ps_cwd ps) trace)
  | None => Raised (UnregisteredProcess parent) trace
  end.

(** ** Handlers *)

Definition sys_read (trace : Trace) (args : Args) : outcome := Done trace.

Definition sys_write (trace : Trace) (args : Args) : outcome := Done trace.

Definition sys_open (trace : Trace) (args : Args) : outcome := Done trace.

Definition sys_close (trace : Trace) (args : Args) : outcome := Done trace.

Definition sys_stat (trace : Trace) (args : Args) : outcome := Done trace.

Definition sys_fstat (trace : Trace) (args : Args) : outcome := Done trace.

Definition sys_lstat (trace : Trace) (args : Args) : outcome := Done trace.

Definition sys_ioctl (trace : Trace) (args : Args) : outcome := Done trace.

Definition sys_pread64 (trace : Trace) (args : Args) : outcome := Done trace.

Definition sys_readv (trace : Trace) (args : Args) : outcome := Done trace.

Definition sys_access (trace : Trace) (args : Args) : outcome := Done trace.

Definition sys_pipe (trace : Trace) (args : Args) : outcome := Done trace.

Definition sys_dup (trace : Trace) (args : Args) : outcome := Done trace.

Definition sys_dup2 (trace : Trace) (args : Args) : outcome := Done trace.

Definition sys_clone (trace : Trace) (args : Args) : outcome :=
  if Return args >? 0 then SpawnTrace trace (PID args) (Return args)
  else Done trace.

Definition sys_vfork (trace : Trace) (args : Args) : outcome :=
  if Return args >? 0 then SpawnTrace trace (PID args) (Return args)
  else Done trace.

Definition sys_fcntl (trace : Trace) (args : Args) : outcome := Done trace.

Definition sys_getdents (trace : Trace) (args : Args) : outcome := Done trace.

Definition sys_chdir (trace : Trace) (args : Args) : outcome := Done trace.

Definition sys_rename (trace : Trace) (args : Args) : outcome := Done trace.

Definition sys_unlink (trace : Trace) (args : Args) : outcome := Done trace.

Definition sys_readlink (trace : Trace) (args : Args) : outcome := Done trace.

Definition sys_chmod (trace : Trace) (args : Args) : outcome := Done trace.

Definition sys_pipe2 (trace : Trace) (args : Args) : outcome := Done trace.

Definition sys_ignore (trace : Trace) (args : Args) : outcome := Done trace.

(** A value of the function pointer type [HandlerFn] is the address of one
    of the handlers above; the null pointer is [None] of
    [option HandlerFn]. *)
Inductive HandlerFn :=
| Fn_read | Fn_write | Fn_open | Fn_close | Fn_stat | Fn_fstat | Fn_lstat
| Fn_ioctl | Fn_pread64 | Fn_readv | Fn_access | Fn_pipe | Fn_dup | Fn_dup2
| Fn_clone | Fn_vfork | Fn_fcntl | Fn_getdents | Fn_chdir | Fn_rename
| Fn_unlink | Fn_readlink | Fn_chmod | Fn_pipe2 | Fn_ignore.

(** Calling through a function pointer. *)
Definition call (h : HandlerFn) : Trace → Args → outcome :=
  match h with
  | Fn_read => sys_read
  | Fn_write => sys_write
  | Fn_open => sys_open
  | Fn_close => sys_close
  | Fn_stat => sys_stat
  | Fn_fstat => sys_fstat
  | Fn_lstat => sys_lstat
  | Fn_ioctl => sys_ioctl
  | Fn_pread64 => sys_pread64
  | Fn_readv => sys_readv
  | Fn_access => sys_access
  | Fn_pipe => sys_pipe
  | Fn_dup => sys_dup
  | Fn_dup2 => sys_dup2
  | Fn_clone => sys_clone
  | Fn_vfork => sys_vfork
  | Fn_fcntl => sys_fcntl
  | Fn_getdents => sys_getdents
  | Fn_chdir => sys_chdir
  | Fn_rename => sys_rename
  | Fn_unlink => sys_unlink
  | Fn_readlink => sys_readlink
  | Fn_chmod => sys_chmod
  | Fn_pipe2 => sys_pipe2
  | Fn_ignore => sys_ignore
  end.

(** ** Syscall numbers

    The constants of [<sys/syscall.h>] that the table names, with their
    values on x86-64 Linux. *)
Module SYS.
Definition SYS_read : Z := 0.
Definition SYS_write : Z := 1.
Definition SYS_open : Z := 2.
Definition SYS_close : Z := 3.
Definition SYS_stat : Z := 4.
Definition SYS_fstat : Z := 5.
Definition SYS_lstat : Z := 6.
Definition SYS_lseek : Z := 8.
Definition SYS_mmap : Z := 9.
Definition SYS_mprotect : Z := 10.
Definition SYS_munmap : Z := 11.
Definition SYS_brk : Z := 12.
Definition SYS_rt_sigaction : Z := 13.
Definition SYS_rt_sigprocmask : Z := 14.
Definition SYS_rt_sigreturn : Z := 15.
Definition SYS_ioctl : Z := 16.
Definition SYS_pread64 : Z := 17.
Definition SYS_readv : Z := 19.
Definition SYS_access : Z := 21.
Definition SYS_pipe : Z := 22.
Definition SYS_dup : Z := 32.
Definition SYS_dup2 : Z := 33.
Definition SYS_getpid : Z := 39.
Definition SYS_clone : Z := 56.
Definition SYS_vfork : Z := 58.
Definition SYS_execve : Z := 59.
Definition SYS_wait4 : Z := 61.
Definition SYS_fcntl : Z := 72.
Definition SYS_getdents : Z := 78.
Definition SYS_getcwd : Z := 79.
Definition SYS_chdir : Z := 80.
Definition SYS_rename : Z := 82.
Definition SYS_unlink : Z := 87.
Definition SYS_readlink : Z := 89.
Definition SYS_chmod : Z := 90.
Definition SYS_umask : Z := 95.
Definition SYS_getrlimit : Z := 97.
Definition SYS_getrusage : Z := 98.
Definition SYS_sysinfo : Z := 99.
Definition SYS_sigaltstack : Z := 131.
Definition SYS_arch_prctl : Z := 158.
Definition SYS_setrlimit : Z := 160.
Definition SYS_futex : Z := 202.
Definition SYS_set_tid_address : Z := 218.
Definition SYS_exit_group : Z := 231.
Definition SYS_set_robust_list : Z := 273.
Definition SYS_pipe2 : Z := 293.
End SYS.
Export SYS.

(** ** The dispatch table *)

(** An array defined by designated initialisers [[i] = x]: it ends at the
    largest designated index, and the elements that are not designated are
    zero, here the null pointer. *)
Definition designate {A} (arr : list (option A)) (d : Z * A)
    : list (option A) :=
  let i := Z.to_nat d.1 in
  if decide (i < length arr)%nat then <[i := Some d.2]> arr
  else arr ++ replicate (i - length arr) None ++ [Some d.2].

Definition designated {A} (ds : list (Z * A)) : list (option A) :=
  foldl designate [] ds.

Definition kHandlers : list (option HandlerFn) :=
  Eval vm_compute in designated
  [ (SYS_read,            Fn_read);
    (SYS_write,           Fn_write);
    (SYS_open,            Fn_open);
    (SYS_close,           Fn_close);
    (SYS_stat,            Fn_stat);
    (SYS_fstat,           Fn_fstat);
    (SYS_lstat,           Fn_lstat);
    (SYS_lseek,           Fn_ignore);
    (SYS_mmap,            Fn_ignore);
    (SYS_mprotect,        Fn_ignore);
    (SYS_munmap,          Fn_ignore);
    (SYS_brk,             Fn_ignore);
    (SYS_rt_sigaction,    Fn_ignore);
    (SYS_rt_sigprocmask,  Fn_ignore);
    (SYS_rt_sigreturn,    Fn_ignore);
    (SYS_ioctl,           Fn_ioctl);
    (SYS_pread64,         Fn_pread64);
    (SYS_readv,           Fn_readv);
    (SYS_access,          Fn_access);
    (SYS_pipe,            Fn_pipe);
    (SYS_dup,             Fn_dup);
    (SYS_dup2,            Fn_dup2);
    (SYS_getpid,          Fn_ignore);
    (SYS_clone,           Fn_clone);
    (SYS_vfork,           Fn_vfork);
    (SYS_execve,          Fn_ignore);
    (SYS_wait4,           Fn_ignore);
    (SYS_fcntl,           Fn_fcntl);
    (SYS_getdents,        Fn_getdents);
    (SYS_getcwd,          Fn_ignore);
    (SYS_chdir,           Fn_chdir);
    (SYS_rename,          Fn_rename);
    (SYS_unlink,          Fn_unlink);
    (SYS_readlink,        Fn_readlink);
    (SYS_chmod,           Fn_chmod);
    (SYS_umask,           Fn_ignore);
    (SYS_sysinfo,         Fn_ignore);
    (SYS_getrlimit,       Fn_ignore);
    (SYS_getrusage,       Fn_ignore);
    (SYS_sigaltstack,     Fn_ignore);
    (SYS_arch_prctl,      Fn_ignore);
    (SYS_setrlimit,       Fn_ignore);
    (SYS_futex,           Fn_ignore);
    (SYS_set_tid_address, Fn_ignore);
    (SYS_exit_group,      Fn_ignore);
    (SYS_set_robust_list, Fn_ignore);
    (SYS_pipe2,           Fn_pipe2) ].

(** [sizeof(kHandlers) / sizeof(kHandlers[0])] *)
Definition kHandlers_size : Z := Z.of_nat (length kHandlers).

(** ** Handle *)

(** The conversion of an [int64_t] to [size_t], which the comparison of
    [sno] with the [sizeof] quotient performs on its left operand. *)
Definition to_size_t (z : Z) : Z := z mod 2 ^ 64.

Definition int64 (z : Z) : Prop := - 2 ^ 63 ≤ z < 2 ^ 63.

(** The [what()] of the exception of [Handle]; [pretty] prints a [Z] the
    way [std::to_string] prints an [int64_t]. *)
Definition Unhandled (sno : Z) : exn :=
  runtime_error ("Unhandled syscall: " +:+ pretty sno).

(** A run of [Handle]: the handlers it called, in order, and its outcome. *)
Record run := {
  invoked : list HandlerFn;
  final : outcome;
}.

Definition Handle (trace : Trace) (sno : Z) (args : Args) : run :=
  if sno <? 0 then {| invoked := []; final := Done trace |}
  else if to_size_t sno >? kHandlers_size then
    {| invoked := []; final := Raised (Unhandled sno) trace |}
  else
    match kHandlers !! Z.to_nat sno with
    | None => {| invoked := []; final := Undefined |}
    | Some None => {| invoked := []; final := Raised (Unhandled sno) trace |}
    | Some (Some h) => {| invoked := [h]; final := call h trace args |}
    end.

(** A syscall number is classified when the table holds a handler for it. *)
Definition classified (sno : Z) : Prop :=
  0 ≤ sno ∧ ∃ h, kHandlers !! Z.to_nat sno = Some (Some h).

(** The edges recorded between [t] and a later [t']. *)
Definition emitted (t t' : Trace) : list DependencyEdge :=
  drop (length (edges t)) (edges t').

(** ** Checking the table slot by slot *)

Global Instance HandlerFn_eq_dec : EqDecision HandlerFn.
Proof. solve_decision. Defined.

Fixpoint slots_all (p : nat → HandlerFn → bool) (i : nat)
    (l : list (option HandlerFn)) : bool :=
  match l with
  | [] => true
  | None :: l => slots_all p (S i) l
  | Some h :: l => p i h && slots_all p (S i) l
  end.

(** The handlers that can reach [SpawnTrace] sit at [SYS_clone] and
    [SYS_vfork], and nowhere else. *)
Definition spawn_slot (i : nat) (h : HandlerFn) : bool :=
  match h with
  | Fn_clone => bool_decide (i = Z.to_nat SYS_clone)
  | Fn_vfork => bool_decide (i = Z.to_nat SYS_vfork)
  | _ => bool_decide (i ≠ Z.to_nat SYS_clone ∧ i ≠ Z.to_nat SYS_vfork)
  end.

(** ** The initialiser of the table

    The designators of [kHandlers], in the order of the source. *)
Definition kHandlers_init : list (Z * HandlerFn) :=
  [ (SYS_read,            Fn_read);
    (SYS_write,           Fn_write);
    (SYS_open,            Fn_open);
    (SYS_close,           Fn_close);
    (SYS_stat,            Fn_stat);
    (SYS_fstat,           Fn_fstat);
    (SYS_lstat,           Fn_lstat);
    (SYS_lseek,           Fn_ignore);
    (SYS_mmap,            Fn_ignore);
    (SYS_mprotect,        Fn_ignore);
    (SYS_munmap,          Fn_ignore);
    (SYS_brk,             Fn_ignore);
    (SYS_rt_sigaction,    Fn_ignore);
    (SYS_rt_sigprocmask,  Fn_ignore);
    (SYS_rt_sigreturn,    Fn_ignore);
    (SYS_ioctl,           Fn_ioctl);
    (SYS_pread64,         Fn_pread64);
    (SYS_readv,           Fn_readv);
    (SYS_access,          Fn_access);
    (SYS_pipe,            Fn_pipe);
    (SYS_dup,             Fn_dup);
    (SYS_dup2,            Fn_dup2);
    (SYS_getpid,          Fn_ignore);
    (SYS_clone,           Fn_clone);
    (SYS_vfork,           Fn_vfork);
    (SYS_execve,          Fn_ignore);
    (SYS_wait4,           Fn_ignore);
    (SYS_fcntl,           Fn_fcntl);
    (SYS_getdents,        Fn_getdents);
    (SYS_getcwd,          Fn_ignore);
    (SYS_chdir,           Fn_chdir);
    (SYS_rename,          Fn_rename);
    (SYS_unlink,          Fn_unlink);
    (SYS_readlink,        Fn_readlink);
    (SYS_chmod,           Fn_chmod);
    (SYS_umask,           Fn_ignore);
    (SYS_sysinfo,         Fn_ignore);
    (SYS_getrlimit,       Fn_ignore);
    (SYS_getrusage,       Fn_ignore);
    (SYS_sigaltstack,     Fn_ignore);
    (SYS_arch_prctl,      Fn_ignore);
    (SYS_setrlimit,       Fn_ignore);
    (SYS_futex,           Fn_ignore);
    (SYS_set_tid_address, Fn_ignore);
    (SYS_exit_group,      Fn_ignore);
    (SYS_set_robust_list, Fn_ignore);
    (SYS_pipe2,           Fn_pipe2) ].

(** ** A traced process

    Process 100 runs in [/tmp] and holds [/tmp/a.txt] open as descriptor 3. *)
Definition proc_P : ProcessState :=
  {| ps_pid := 100;
     ps_cwd := "/tmp";
     ps_fds := {[ 3 := {| desc_file := "/tmp/a.txt"; desc_flags := 0;
                          desc_cloexec := false |} ]};
     ps_parent := None |}.

Definition trace_P : Trace :=
  {| procs := {[ 100 := proc_P ]}; edges := [] |}.

(** [read(3, buf, 4096)] returned 10. *)
Definition read_ok : Args :=
  {| PID := 100; Return := 10; Arg := [3; 140737488347136; 4096] |}.

(** [rename("out.tmp", "out.txt")] returned 0; both arguments are addresses
    in the traced process. *)
Definition rename_ok : Args :=
  {| PID := 100; Return := 0; Arg := [93824992235520; 93824992235528] |}.

(** [open("b.txt", O_RDONLY)] returned descriptor 4. *)
Definition open_ok : Args :=
  {| PID := 100; Return := 4; Arg := [93824992235520; 0] |}.

(** [close(3)] returned 0. *)
Definition close_ok : Args :=
  {| PID := 100; Return := 0; Arg := [3] |}.

(** [clone] returned child pid 500 in the parent. *)
Definition clone_parent : Args :=
  {| PID := 100; Return := 500; Arg := [18874385; 0; 0; 0; 0] |}.

(** [clone] failed with [-EAGAIN]. *)
Definition clone_failed : Args :=
  {| PID := 100; Return := -11; Arg := [18874385; 0; 0; 0; 0] |}.

(** * Properties *)

(** ** The table *)

Lemma kHandlers_size_eq : kHandlers_size = 294.
Proof. reflexivity. Qed.

Lemma slots_all_lookup p l :
  ∀ i, slots_all p i l = true →
  ∀ j h, l !! j = Some (Some h) → p (i + j)%nat h = true.
Proof.
  induction l as [|[g|] l IH]; intros i Hall j h Hj; simpl in *.
  - by rewrite lookup_nil in Hj.
  - apply andb_prop in Hall as [Hp Hl]. destruct j as [|j]; simpl in Hj.
    + injection Hj as ->. by rewrite Nat.add_0_r.
    + rewrite <- Nat.add_succ_comm. by eapply IH.
  - destruct j as [|j]; simpl in Hj; [discriminate|].
    rewrite <- Nat.add_succ_comm. by eapply IH.
Qed.

Lemma kHandlers_spawn_slots i h :
  kHandlers !! i = Some (Some h) → spawn_slot i h = true.
Proof.
  intros Hi. apply (slots_all_lookup spawn_slot kHandlers 0); [|done].
  by vm_compute.
Qed.

Lemma kHandlers_in_bounds sno e :
  0 ≤ sno → kHandlers !! Z.to_nat sno = Some e → sno < kHandlers_size.
Proof.
  intros Hsno He. apply lookup_lt_Some in He.
  unfold kHandlers_size. lia.
Qed.

Lemma to_size_t_small z : 0 ≤ z < 2 ^ 64 → to_size_t z = z.
Proof. intros Hz. unfold to_size_t. by apply Z.mod_small. Qed.

(** ** The handlers *)

Lemma call_only_spawn_mutates h t args :
  h ≠ Fn_clone → h ≠ Fn_vfork → call h t args = Done t.
Proof. intros Hc Hv. by destruct h. Qed.

Lemma call_unsuccessful h t args : Return args ≤ 0 → call h t args = Done t.
Proof.
  intros Hret. destruct h; try reflexivity; simpl.
  - unfold sys_clone. destruct (Z.gtb_spec (Return args) 0); [lia|done].
  - unfold sys_vfork. destruct (Z.gtb_spec (Return args) 0); [lia|done].
Qed.

Lemma call_spawn h t args :
  h = Fn_clone ∨ h = Fn_vfork → 0 < Return args →
  call h t args = SpawnTrace t (PID args) (Return args).
Proof.
  intros [-> | ->] Hret; simpl.
  - unfold sys_clone. destruct (Z.gtb_spec (Return args) 0); [done|lia].
  - unfold sys_vfork. destruct (Z.gtb_spec (Return args) 0); [done|lia].
Qed.

Lemma SpawnTrace_registered t parent pid ps :
  procs t !! parent = Some ps →
  SpawnTrace t parent pid =
    Done {| procs := <[pid := {| ps_pid := pid; ps_cwd := ps_cwd ps;
                                 ps_fds := ps_fds ps;
                                 ps_parent := Some parent |}]> (procs t);
            edges := edges t |}.
Proof.
  intros Hps. unfold SpawnTrace, ProcessStateTable.lookup. by rewrite Hps.
Qed.

(** ** The three exits of [Handle] *)

Lemma Handle_dispatch t sno args h :
  0 ≤ sno → kHandlers !! Z.to_nat sno = Some (Some h) →
  Handle t sno args = {| invoked := [h]; final := call h t args |}.
Proof.
  intros Hsno Hh. unfold Handle.
  pose proof (kHandlers_in_bounds _ _ Hsno Hh) as Hlt.
  rewrite kHandlers_size_eq in Hlt.
  destruct (Z.ltb_spec sno 0); [lia|].
  rewrite to_size_t_small by lia.
  destruct (Z.gtb_spec sno kHandlers_size) as [Hgt|_].
  { rewrite kHandlers_size_eq in Hgt. lia. }
  by rewrite Hh.
Qed.

Lemma Handle_unclassified t sno args :
  0 ≤ sno < 2 ^ 63 → sno ≠ kHandlers_size → ¬ classified sno →
  Handle t sno args =
    {| invoked := []; final := Raised (Unhandled sno) t |}.
Proof.
  intros Hsno Hne Hnc. unfold Handle.
  destruct (Z.ltb_spec sno 0); [lia|].
  rewrite to_size_t_small by lia.
  destruct (Z.gtb_spec sno kHandlers_size) as [Hgt|Hle]; [done|].
  destruct (kHandlers !! Z.to_nat sno) as [[h|]|] eqn:Hh; [| done |].
  - destruct Hnc. split; [lia | eauto].
  - apply lookup_ge_None in Hh. unfold kHandlers_size in *. lia.
Qed.

Lemma Unhandled_inj sno sno' : Unhandled sno = Unhandled sno' → sno = sno'.
Proof.
  unfold Unhandled. intros H. injection H as H.
  apply (inj (String.app _)) in H. by apply (inj pretty) in H.
Qed.

(** Apart from the number equal to the length of the table, every 64-bit
    syscall number is handled without reading outside the table. *)
Lemma Handle_defined t sno args :
  int64 sno → sno ≠ kHandlers_size → final (Handle t sno args) ≠ Undefined.
Proof.
  intros [Hlo Hhi] Hne. unfold Handle.
  destruct (Z.ltb_spec sno 0); [done|].
  rewrite to_size_t_small by lia.
  destruct (Z.gtb_spec sno kHandlers_size) as [Hgt|Hle]; [done|].
  destruct (kHandlers !! Z.to_nat sno) as [[h|]|] eqn:Hh; simpl; [| done |].
  - destruct h; simpl; try done; unfold sys_clone, sys_vfork, SpawnTrace;
      by repeat case_match.
  - apply lookup_ge_None in Hh. unfold kHandlers_size in *. lia.
Qed.

(** ** Dispatch of unclassified syscall numbers *)

(** C1, as stated, fails: -1 has no entry in the table, and [Handle] returns
    from it normally, with the trace as it was, instead of throwing. *)
Lemma Handle_unclassified_negative_silent :
  ¬ (¬ classified (-1) →
     ∃ e, final (Handle trace_P (-1) read_ok) = Raised e trace_P).
Proof.
  intros Hclaim. destruct Hclaim as [e He].
  - intros [Hneg _]. lia.
  - vm_compute in He. discriminate He.
Qed.

(** C1, amended: for every non-negative syscall number with no handler in
    the table, other than the number equal to the table's length, [Handle]
    calls no handler and throws the runtime error whose message is
    "Unhandled syscall: " followed by the number in decimal; the error
    determines the number, and the trace is the one [Handle] received. *)
Theorem Handle_unclassified_throws t sno args :
  0 ≤ sno < 2 ^ 63 → sno ≠ kHandlers_size → ¬ classified sno →
  Handle t sno args = {| invoked := []; final := Raised (Unhandled sno) t |}
  ∧ ∀ sno', Unhandled sno' = Unhandled sno → sno' = sno.
Proof.
  intros Hsno Hne Hnc. split.
  - by apply Handle_unclassified.
  - intros sno'. apply Unhandled_inj.
Qed.

Lemma Handle_unclassified_throws_witness :
  Handle trace_P 7 read_ok =
    {| invoked := [];
       final := Raised (runtime_error "Unhandled syscall: 7") trace_P |}.
Proof.
  refine (proj1 (Handle_unclassified_throws trace_P 7 read_ok _ _ _)).
  - lia.
  - rewrite kHandlers_size_eq. lia.
  - intros [_ [h Hh]]. vm_compute in Hh. discriminate Hh.
Defined.

(** ** The bounds check *)

(** C2: the syscall number equal to the length of [kHandlers] is not
    rejected by the comparison [sno > sizeof(kHandlers) / sizeof(kHandlers[0])],
    and [Handle] goes on to read [kHandlers[sno]], one element past the end
    of the table. *)
Theorem Handle_reads_past_end t args :
  (kHandlers_size <? 0) = false
  ∧ (to_size_t kHandlers_size >? kHandlers_size) = false
  ∧ kHandlers !! Z.to_nat kHandlers_size = None
  ∧ Handle t kHandlers_size args = {| invoked := []; final := Undefined |}.
Proof. repeat split. Qed.

(** ** Failed syscalls *)

(** C3: when the call returned a negative value, no handler changes the
    trace, and [Handle], for every classified syscall number, calls the
    handler of the table and returns with the trace it received: the process
    table and the edges are the same. *)
Theorem Handle_failed_syscall t sno args h :
  0 ≤ sno → kHandlers !! Z.to_nat sno = Some (Some h) → Return args < 0 →
  (∀ h', call h' t args = Done t)
  ∧ Handle t sno args = {| invoked := [h]; final := Done t |}.
Proof.
  intros Hsno Hh Hret. split.
  - intros h'. apply call_unsuccessful. lia.
  - rewrite (Handle_dispatch _ _ _ h) by done.
    f_equal. apply call_unsuccessful. lia.
Qed.

Lemma Handle_failed_syscall_witness :
  Handle trace_P SYS_clone clone_failed =
    {| invoked := [Fn_clone]; final := Done trace_P |}.
Proof.
  refine (proj2 (Handle_failed_syscall trace_P SYS_clone clone_failed
                   Fn_clone _ _ _)).
  - unfold SYS_clone. lia.
  - reflexivity.
  - simpl. lia.
Defined.

(** ** Process creation *)

(** C4: for [clone] and [vfork], a positive return value makes [Handle] call
    [SpawnTrace] with the pid of the caller and the returned pid; when the
    caller is registered this registers the child with the caller's
    descriptor table and working directory and with the caller as parent,
    and records no edge.  With a zero or negative return value nothing is
    registered: the trace is unchanged. *)
Theorem Handle_spawn t sno args :
  sno = SYS_clone ∨ sno = SYS_vfork →
  (0 < Return args →
     final (Handle t sno args) = SpawnTrace t (PID args) (Return args)
     ∧ ∀ ps, procs t !! PID args = Some ps →
         ∃ t', final (Handle t sno args) = Done t'
           ∧ procs t' =
               <[Return args := {| ps_pid := Return args;
                                   ps_cwd := ps_cwd ps;
                                   ps_fds := ps_fds ps;
                                   ps_parent := Some (PID args) |}]> (procs t)
           ∧ edges t' = edges t)
  ∧ (Return args ≤ 0 → final (Handle t sno args) = Done t).
Proof.
  intros Hsno.
  assert (∃ h, (h = Fn_clone ∨ h = Fn_vfork)
               ∧ Handle t sno args =
                   {| invoked := [h]; final := call h t args |})
    as (h & Hh & ->).
  { destruct Hsno as [-> | ->]; [exists Fn_clone | exists Fn_vfork];
      (split; [tauto | by apply Handle_dispatch]). }
  simpl. split.
  - intros Hret. rewrite call_spawn by done. split; [done|].
    intros ps Hps. rewrite (SpawnTrace_registered _ _ _ ps) by done.
    eexists. split; [reflexivity|]. simpl. done.
  - intros Hret. by apply call_unsuccessful.
Qed.

Lemma Handle_spawn_witness :
  (∃ t', final (Handle trace_P SYS_clone clone_parent) = Done t'
     ∧ procs t' !! 500 =
         Some {| ps_pid := 500; ps_cwd := "/tmp"; ps_fds := ps_fds proc_P;
                 ps_parent := Some 100 |}
     ∧ edges t' = [])
  ∧ final (Handle trace_P SYS_vfork clone_failed) = Done trace_P.
Proof.
  split.
  - destruct (Handle_spawn trace_P SYS_clone clone_parent) as [Hpos _].
    { by left. }
    destruct Hpos as [_ Hreg]. { simpl. lia. }
    destruct (Hreg proc_P) as (t' & Ht' & Hprocs & Hedges). { reflexivity. }
    exists t'. split; [done|]. split; [|done].
    rewrite Hprocs. simpl. by rewrite lookup_insert_eq.
  - refine (proj2 (Handle_spawn trace_P SYS_vfork clone_failed _) _).
    + by right.
    + simpl. lia.
Defined.

(** ** Reads *)

(** C5, as stated, fails: process 100 holds /tmp/a.txt open as descriptor 3
    and its [read(3, ...)] returned 10, yet no edge is recorded. *)
Lemma Handle_read_emits_nothing :
  ¬ ∃ t' e, final (Handle trace_P SYS_read read_ok) = Done t'
            ∧ emitted trace_P t' = [e]
            ∧ edge_kind e = Read ∧ edge_file e = "/tmp/a.txt"%string.
Proof.
  intros (t' & e & Hfinal & Hemitted & _).
  vm_compute in Hfinal. injection Hfinal as <-.
  vm_compute in Hemitted. discriminate Hemitted.
Qed.

(** C5, amended: for every successful [read], [pread64] or [getdents],
    [Handle] calls the handler of the table, which records no edge and
    updates no state: the trace is left as it was. *)
Theorem Handle_read_no_effect t sno args :
  sno = SYS_read ∨ sno = SYS_pread64 ∨ sno = SYS_getdents →
  0 ≤ Return args →
  ∃ h, Handle t sno args = {| invoked := [h]; final := Done t |}
       ∧ emitted t t = [].
Proof.
  intros Hsno _.
  assert (emitted t t = []) as Hnone by apply drop_all.
  destruct Hsno as [-> | [-> | ->]];
    [exists Fn_read | exists Fn_pread64 | exists Fn_getdents];
    (split; [by apply Handle_dispatch | done]).
Qed.

Lemma Handle_read_no_effect_witness :
  ∃ h, Handle trace_P SYS_read read_ok =
         {| invoked := [h]; final := Done trace_P |}
       ∧ emitted trace_P trace_P = [].
Proof.
  apply (Handle_read_no_effect trace_P SYS_read read_ok).
  - by left.
  - simpl. lia.
Defined.

(** ** Rename *)

(** C6, as stated, fails: after a successful [rename] the trace holds no
    Rename-From edge and no Rename-To edge. *)
Lemma Handle_rename_emits_nothing :
  ¬ ∃ t' e1 e2, final (Handle trace_P SYS_rename rename_ok) = Done t'
                ∧ e1 ∈ emitted trace_P t' ∧ e2 ∈ emitted trace_P t'
                ∧ edge_kind e1 = Rename_From ∧ edge_kind e2 = Rename_To
                ∧ edge_seq e1 = edge_seq e2.
Proof.
  intros (t' & e1 & e2 & Hfinal & He1 & _).
  vm_compute in Hfinal. injection Hfinal as <-.
  vm_compute in He1. by apply elem_of_nil in He1.
Qed.

(** C6, amended: a successful [rename] records no edge at all, so never one
    edge of the pair without the other, and leaves the trace as it was. *)
Theorem Handle_rename_no_effect t args :
  0 ≤ Return args →
  Handle t SYS_rename args = {| invoked := [Fn_rename]; final := Done t |}
  ∧ ∀ e, e ∈ emitted t t →
         edge_kind e ≠ Rename_From ∧ edge_kind e ≠ Rename_To.
Proof.
  intros _. split.
  - by apply Handle_dispatch.
  - intros e He. unfold emitted in He. rewrite drop_all in He.
    by apply elem_of_nil in He.
Qed.

Lemma Handle_rename_no_effect_witness :
  Handle trace_P SYS_rename rename_ok =
    {| invoked := [Fn_rename]; final := Done trace_P |}.
Proof.
  refine (proj1 (Handle_rename_no_effect trace_P rename_ok _)).
  simpl. lia.
Defined.

(** ** Open and close *)

(** C7, as stated, fails: [open] returned descriptor 4 to process 100, and
    the descriptor table of process 100 has no entry for 4 afterwards. *)
Lemma Handle_open_adds_nothing :
  ¬ ∃ t' ps d, final (Handle trace_P SYS_open open_ok) = Done t'
               ∧ procs t' !! PID open_ok = Some ps
               ∧ ps_fds ps !! Return open_ok = Some d.
Proof.
  intros (t' & ps & d & Hfinal & Hps & Hd).
  vm_compute in Hfinal. injection Hfinal as <-.
  vm_compute in Hps. injection Hps as <-.
  vm_compute in Hd. discriminate Hd.
Qed.

(** C7, amended: for every successful [open], [Handle] calls [sys_open],
    which adds no descriptor and records no edge: the descriptor table of
    every process, and the whole trace, are left as they were. *)
Theorem Handle_open_no_effect t args :
  0 ≤ Return args →
  Handle t SYS_open args = {| invoked := [Fn_open]; final := Done t |}.
Proof. intros _. by apply Handle_dispatch. Qed.

Lemma Handle_open_no_effect_witness :
  Handle trace_P SYS_open open_ok =
    {| invoked := [Fn_open]; final := Done trace_P |}.
Proof. apply (Handle_open_no_effect trace_P open_ok). simpl. lia. Defined.

(** C8, as stated, fails: [close(3)] succeeded in process 100, and
    descriptor 3 is still in its descriptor table afterwards. *)
Lemma Handle_close_removes_nothing :
  ¬ ∃ t' ps, final (Handle trace_P SYS_close close_ok) = Done t'
             ∧ procs t' !! PID close_ok = Some ps
             ∧ ps_fds ps !! 3 = None.
Proof.
  intros (t' & ps & Hfinal & Hps & Hfd).
  vm_compute in Hfinal. injection Hfinal as <-.
  vm_compute in Hps. injection Hps as <-.
  vm_compute in Hfd. discriminate Hfd.
Qed.

(** C8, amended: for every successful [close], of a descriptor the table
    knows or not, [Handle] calls [sys_close], which raises no error, removes
    no descriptor and records no edge: the trace is left as it was. *)
Theorem Handle_close_no_effect t args :
  0 ≤ Return args →
  Handle t SYS_close args = {| invoked := [Fn_close]; final := Done t |}.
Proof. intros _. by apply Handle_dispatch. Qed.

Lemma Handle_close_no_effect_witness :
  Handle trace_P SYS_close close_ok =
    {| invoked := [Fn_close]; final := Done trace_P |}.
Proof. apply (Handle_close_no_effect trace_P close_ok). simpl. lia. Defined.

(** ** Frame *)

(** C9: for a classified syscall number other than [SYS_clone] and
    [SYS_vfork], [Handle] calls the handler of the table and returns with
    the trace unchanged; and whenever the trace after [Handle] differs from
    the one before, the number is [SYS_clone] or [SYS_vfork] and the return
    value is positive. *)
Theorem Handle_only_spawn_mutates t sno args h :
  0 ≤ sno → kHandlers !! Z.to_nat sno = Some (Some h) →
  (sno ≠ SYS_clone → sno ≠ SYS_vfork →
     Handle t sno args = {| invoked := [h]; final := Done t |})
  ∧ (∀ t', trace_after (final (Handle t sno args)) = Some t' → t' ≠ t →
       (sno = SYS_clone ∨ sno = SYS_vfork) ∧ 0 < Return args).
Proof.
  intros Hsno Hh.
  pose proof (kHandlers_spawn_slots _ _ Hh) as Hslot.
  rewrite (Handle_dispatch _ _ _ h) by done. simpl.
  assert (h = Fn_clone ∨ h = Fn_vfork → sno = SYS_clone ∨ sno = SYS_vfork)
    as Hspawn.
  { intros [-> | ->]; simpl in Hslot; apply bool_decide_eq_true in Hslot;
      [left | right]; apply Z2Nat.inj; auto; by vm_compute. }
  assert (sno ≠ SYS_clone → sno ≠ SYS_vfork → h ≠ Fn_clone ∧ h ≠ Fn_vfork)
    as Hother.
  { intros Hc Hv. split; intros ->; destruct Hspawn; auto. }
  split.
  - intros Hc Hv. destruct (Hother Hc Hv).
    f_equal. by apply call_only_spawn_mutates.
  - intros t' Ht' Hne.
    destruct (decide (h = Fn_clone ∨ h = Fn_vfork)) as [Hs|Hs].
    + split; [by apply Hspawn|].
      destruct (Z.lt_ge_cases 0 (Return args)) as [|Hret]; [done|].
      rewrite call_unsuccessful in Ht' by lia. simpl in Ht'. congruence.
    + rewrite call_only_spawn_mutates in Ht' by tauto.
      simpl in Ht'. congruence.
Qed.

Lemma Handle_only_spawn_mutates_witness :
  Handle trace_P SYS_chdir close_ok =
    {| invoked := [Fn_chdir]; final := Done trace_P |}
  ∧ ((SYS_clone = SYS_clone ∨ SYS_clone = SYS_vfork)
     ∧ 0 < Return clone_parent).
Proof.
  split.
  - refine (proj1 (Handle_only_spawn_mutates trace_P SYS_chdir close_ok
                     Fn_chdir _ _) _ _).
    + by vm_compute.
    + reflexivity.
    + by vm_compute.
    + by vm_compute.
  - refine (proj2 (Handle_only_spawn_mutates trace_P SYS_clone clone_parent
                     Fn_clone _ _)
              (ProcessStateTable.register 500 (Some 100) (ps_fds proc_P)
                 "/tmp" trace_P) _ _).
    + by vm_compute.
    + reflexivity.
    + reflexivity.
    + intros Heq. apply (f_equal (λ t, procs t !! 500)) in Heq.
      vm_compute in Heq. discriminate Heq.
Defined.

(** ** Negative syscall numbers *)

(** C10: for every negative syscall number [Handle] returns at once: it
    calls no handler, raises no error, and the trace is the one it
    received. *)
Theorem Handle_negative t sno args :
  sno < 0 → Handle t sno args = {| invoked := []; final := Done t |}.
Proof.
  intros Hneg. unfold Handle. by destruct (Z.ltb_spec sno 0); [|lia].
Qed.

Lemma Handle_negative_witness :
  Handle trace_P (-1) clone_parent =
    {| invoked := []; final := Done trace_P |}.
Proof. apply (Handle_negative trace_P (-1) clone_parent). lia. Defined.

(** * Further properties of the dispatcher *)

(** ** Arrays built from designators *)

Lemma designate_length {A} (arr : list (option A)) (d : Z * A) :
  length (designate arr d) = (length arr `max` S (Z.to_nat d.1))%nat.
Proof.
  unfold designate. case_decide.
  - rewrite length_insert. lia.
  - rewrite !length_app, length_replicate. simpl. lia.
Qed.

Lemma designate_lookup {A} (arr : list (option A)) (d : Z * A) i x :
  designate arr d !! i = Some (Some x) ↔
  (i = Z.to_nat d.1 ∧ x = d.2) ∨ (i ≠ Z.to_nat d.1 ∧ arr !! i = Some (Some x)).
Proof.
  unfold designate. case_decide as Hlt.
  - destruct (decide (i = Z.to_nat d.1)) as [->|Hne].
    + rewrite list_lookup_insert_eq by done. split.
      * intros [= ->]. by left.
      * intros [[_ ->]|[Hne _]]; [done|by destruct Hne].
    + rewrite list_lookup_insert_ne by done. split.
      * intros Hx. by right.
      * intros [[-> _]|[_ Hx]]; [by destruct Hne|done].
  - destruct (decide (i < length arr)%nat) as [Hi|Hi].
    + rewrite lookup_app_l by done. split.
      * intros Hx. right. split; [lia|done].
      * intros [[-> _]|[_ Hx]]; [lia|done].
    + rewrite lookup_app_r by lia.
      rewrite (proj2 (lookup_ge_None arr i)) by lia.
      destruct (decide (i - length arr < Z.to_nat d.1 - length arr)%nat).
      * rewrite lookup_app_l by (rewrite length_replicate; lia).
        rewrite lookup_replicate_2 by lia. split; [done|].
        intros [[? _]|[_ ?]]; [lia|done].
      * rewrite lookup_app_r by (rewrite length_replicate; lia).
        rewrite length_replicate.
        destruct (decide (i = Z.to_nat d.1)) as [->|Hne].
        -- replace (_ - _ - _)%nat with 0%nat by lia. simpl. split.
           ++ intros [= ->]. by left.
           ++ intros [[_ ->]|[Hne _]]; [done|by destruct Hne].
        -- replace (i - length arr - (Z.to_nat d.1 - length arr))%nat
             with (S (i - S (Z.to_nat d.1)))%nat by lia.
           simpl. rewrite lookup_nil. split; [done|].
           intros [[-> _]|[_ ?]]; [by destruct Hne|done].
Qed.

Lemma foldl_designate_lookup {A} (ds : list (Z * A)) :
  ∀ arr i x,
  NoDup (Z.to_nat <$> ds.*1) →
  foldl designate arr ds !! i = Some (Some x) ↔
  (∃ n, (n, x) ∈ ds ∧ i = Z.to_nat n)
  ∨ (i ∉ Z.to_nat <$> ds.*1) ∧ arr !! i = Some (Some x).
Proof.
  induction ds as [|[n y] ds IH]; intros arr i x Hnd; simpl.
  - split; [intros; right; split; [apply not_elem_of_nil|done]|].
    intros [(n & Hn & _)|[_ ?]]; [by apply elem_of_nil in Hn|done].
  - apply NoDup_cons in Hnd as [Hn Hnd].
    rewrite IH by done. rewrite designate_lookup. simpl.
    rewrite not_elem_of_cons. split.
    + intros [(m & Hm & ->)|(Hi & [[-> ->]|[Hne Harr]])].
      * left. exists m. split; [by right|done].
      * left. exists n. split; [by left|done].
      * by right.
    + intros [(m & Hm & ->)|((Hne & Hi) & Harr)].
      * apply elem_of_cons in Hm as [[= -> ->]|Hm].
        -- right. split; [done|by left].
        -- left. by exists m.
      * right. split; [done|]. right. done.
Qed.

(** An array initialised by designators with pairwise distinct indices
    holds [x] at index [i] exactly when [[i] = x] is one of them. *)
Lemma designated_lookup {A} (ds : list (Z * A)) i x :
  NoDup (Z.to_nat <$> ds.*1) →
  designated ds !! i = Some (Some x) ↔ ∃ n, (n, x) ∈ ds ∧ i = Z.to_nat n.
Proof.
  intros Hnd. unfold designated. rewrite foldl_designate_lookup by done.
  rewrite lookup_nil. split.
  - intros [Hin|[_ ?]]; [done|done].
  - intros Hin. by left.
Qed.

Lemma kHandlers_designated : kHandlers = designated kHandlers_init.
Proof. reflexivity. Qed.

Lemma kHandlers_init_NoDup : NoDup (Z.to_nat <$> kHandlers_init.*1).
Proof. apply (bool_decide_unpack _). by vm_compute. Qed.

Lemma kHandlers_init_nonneg : Forall (λ d, 0 ≤ d.1) kHandlers_init.
Proof.
  unfold kHandlers_init. repeat (constructor; [by vm_compute|]). constructor.
Qed.

(** ** What a run of [Handle] can leave behind *)

Lemma call_trace_after h t args t' :
  trace_after (call h t args) = Some t' →
  t' = t
  ∨ ∃ ps, procs t !! PID args = Some ps
          ∧ t' = ProcessStateTable.register (Return args) (Some (PID args))
                   (ps_fds ps) (ps_cwd ps) t.
Proof.
  destruct h; simpl;
    try (intros [= <-]; by left);
    unfold sys_clone, sys_vfork, SpawnTrace, ProcessStateTable.lookup;
    (destruct (Return args >? 0); [|intros [= <-]; by left]);
    (destruct (procs t !! PID args) as [ps|] eqn:Hps; simpl;
       intros [= <-]; [right; by exists ps | by left]).
Qed.

Lemma Handle_trace_after t sno args t' :
  trace_after (final (Handle t sno args)) = Some t' →
  t' = t
  ∨ ∃ ps, procs t !! PID args = Some ps
          ∧ t' = ProcessStateTable.register (Return args) (Some (PID args))
                   (ps_fds ps) (ps_cwd ps) t.
Proof.
  unfold Handle.
  destruct (sno <? 0); [intros [= <-]; by left|].
  destruct (to_size_t sno >? kHandlers_size); [intros [= <-]; by left|].
  destruct (kHandlers !! Z.to_nat sno) as [[h|]|]; simpl.
  - apply call_trace_after.
  - intros [= <-]. by left.
  - discriminate.
Qed.

(** X1: among the 64-bit syscall numbers, the only one for which [Handle]
    reads outside [kHandlers] is the length of the table itself; every other
    number is answered by a return, by the exception, or by the handler of
    its slot. *)
Theorem Handle_undefined_iff t sno args :
  int64 sno →
  final (Handle t sno args) = Undefined ↔ sno = kHandlers_size.
Proof.
  intros Hsno. split.
  - intros Hundef. destruct (decide (sno = kHandlers_size)) as [|Hne]; [done|].
    by destruct (Handle_defined t sno args Hsno Hne).
  - intros ->. reflexivity.
Qed.

Lemma Handle_undefined_iff_witness :
  final (Handle trace_P 294 read_ok) = Undefined ↔ 294 = kHandlers_size.
Proof.
  apply (Handle_undefined_iff trace_P 294 read_ok).
  unfold int64. lia.
Defined.

(** X2: the table holds a handler at a syscall number exactly when the
    initialiser of [kHandlers] designates that number, and the handler is
    the designated one; the slots in between are null. *)
Theorem kHandlers_classification sno h :
  0 ≤ sno ∧ kHandlers !! Z.to_nat sno = Some (Some h) ↔
  (sno, h) ∈ kHandlers_init.
Proof.
  rewrite kHandlers_designated.
  rewrite (designated_lookup kHandlers_init) by apply kHandlers_init_NoDup.
  pose proof kHandlers_init_nonneg as Hnonneg.
  rewrite Forall_forall in Hnonneg. split.
  - intros (Hsno & n & Hn & Heq).
    pose proof (Hnonneg _ Hn) as Hn0. simpl in Hn0.
    apply Z2Nat.inj in Heq; [by subst|done..].
  - intros Hin. split; [apply (Hnonneg _ Hin)|]. by exists sno.
Qed.


(** X4: no run of [Handle] records an edge: whatever the syscall number,
    the arguments and the return value, the edges of the trace after the
    run, returned or thrown, are the edges before it. *)
Theorem Handle_never_emits t sno args t' :
  trace_after (final (Handle t sno args)) = Some t' → edges t' = edges t.
Proof.
  intros Hafter.
  destruct (Handle_trace_after _ _ _ _ Hafter) as [->|(ps & _ & ->)]; done.
Qed.

Lemma Handle_never_emits_witness :
  edges (ProcessStateTable.register 500 (Some 100) (ps_fds proc_P) "/tmp"
           trace_P) = edges trace_P.
Proof.
  apply (Handle_never_emits trace_P SYS_clone clone_parent). reflexivity.
Defined.

(** X5: a run of [Handle] leaves every entry of the process table in place,
    except possibly the one of the pid in [args.Return]: no process is
    retired or rewritten by the syscall of another. *)
Theorem Handle_procs_frame t sno args t' pid :
  trace_after (final (Handle t sno args)) = Some t' →
  pid ≠ Return args →
  procs t' !! pid = procs t !! pid.
Proof.
  intros Hafter Hpid.
  destruct (Handle_trace_after _ _ _ _ Hafter) as [->|(ps & _ & ->)];
    [done|].
  simpl. by rewrite lookup_insert_ne.
Qed.

Lemma Handle_procs_frame_witness :
  procs (ProcessStateTable.register 500 (Some 100) (ps_fds proc_P) "/tmp"
           trace_P) !! 100 = procs trace_P !! 100.
Proof.
  apply (Handle_procs_frame trace_P SYS_clone clone_parent).
  - reflexivity.
  - simpl. lia.
Defined.

(** X6: no handler reads the argument registers: a run of [Handle] is the
    same for any two argument blocks with the same [PID] and [Return]. *)
Theorem Handle_ignores_Arg t sno args regs :
  Handle t sno {| PID := PID args; Return := Return args; Arg := regs |}
  = Handle t sno args.
Proof.
  unfold Handle.
  destruct (sno <? 0); [done|].
  destruct (to_size_t sno >? kHandlers_size); [done|].
  destruct (kHandlers !! Z.to_nat sno) as [[h|]|]; [|done..].
  f_equal. by destruct h.
Qed.



